(** * get-workflow-version: the reusable-workflow version resolver

    A shallow embedding of [src/get_workflow_version/main.py] and the
    properties of its two parts: the parser of a [referenced_workflows]
    entry ([ReusableWorkflow.from_github_api]) and the resolver ([main]).

    Python [str] values are modelled as [string] (a sequence of bytes, the
    UTF-8 encoding of the text).  The only characters the program inspects
    are ASCII (line feed, [/], [.], [@] and the letters of the marker), and
    no byte of a multi-byte UTF-8 sequence is an ASCII byte, so matching
    byte by byte splits a text exactly where matching character by
    character does. *)

From Stdlib Require Import Ascii String ZArith List Permutation DecimalString.
From stdpp Require Import base gmap strings list sets.

Local Open Scope stdpp_scope.

(** * Part I: the program *)

(** ** Strings *)

Module Str.

Definition LF : ascii := "010"%char.

(** The one-character string holding a line feed (Python's ["\n"]). *)
Definition nl : string := String LF "".

(** [has c s]: the character [c] occurs in [s] (Python's [c in s]). *)
Fixpoint has (c : ascii) (s : string) : bool :=
  match s with
  | "" => false
  | String d s' => Ascii.eqb d c || has c s'
  end.

(** [starts m s]: [s] starts with [m] (Python's [s.startswith(m)]). *)
Fixpoint starts (m s : string) : bool :=
  match m, s with
  | "", _ => true
  | String a m', String b s' => Ascii.eqb a b && starts m' s'
  | String _ _, "" => false
  end.

(** [occurs m s]: [m] is a substring of [s] (Python's [m in s]). *)
Fixpoint occurs (m s : string) : bool :=
  starts m s ||
  match s with
  | "" => false
  | String _ s' => occurs m s'
  end.

(** [take n s]: the first [n] characters of [s] (Python's [s[:n]]). *)
Fixpoint take (n : nat) (s : string) : string :=
  match n, s with
  | S n', String c s' => String c (take n' s')
  | _, _ => ""
  end.

(** [drop n s]: [s] without its first [n] characters (Python's [s[n:]]). *)
Fixpoint drop (n : nat) (s : string) : string :=
  match n, s with
  | S n', String _ s' => drop n' s'
  | _, _ => s
  end.

(** [ends m s]: [s] ends with [m] (Python's [s.endswith(m)]). *)
Fixpoint ends (m s : string) : bool :=
  String.eqb s m ||
  match s with
  | "" => false
  | String _ s' => ends m s'
  end.


(** Truth value of a string: the empty string is false. *)
Definition nonempty (s : string) : bool :=
  match s with "" => false | String _ _ => true end.

(** [repr] of a text without quotes, backslashes or unprintable
    characters: the text between single quotes. *)
Definition quote (s : string) : string := "'" +:+ s +:+ "'".

(** [repr] and [str] of a Python [int]: decimal digits, [-] for a negative
    number. *)
Definition of_int (z : Z) : string := NilZero.string_of_int (Z.to_int z).

End Str.

(** ** The fragment of Python's [re] that the program uses

    A backtracking matcher in continuation-passing style, as the [re]
    engine works: an expression consumes a prefix of the subject and hands
    the rest to its continuation; when the continuation fails the
    expression tries its next alternative.  A lazy star tries the
    continuation before it consumes one more character. *)

Module Re.

Inductive atom :=
| AChar (c : ascii)   (** a literal character (also an escaped one, [\.]) *)
| ADot.               (** [.]: any character except a line feed *)

Definition atom_matches (a : atom) (c : ascii) : bool :=
  match a with
  | AChar d => Ascii.eqb c d
  | ADot => negb (Ascii.eqb c Str.LF)
  end.

Inductive regex :=
| Eps
| Atom (a : atom)
| LazyStar (a : atom)                (** [a*?] *)
| Seq (r1 r2 : regex)
| Group (name : string) (r : regex). (** [(?P<name>r)] *)

(** A run of literal characters. *)
Fixpoint lit (s : string) : regex :=
  match s with
  | "" => Eps
  | String c s' => Seq (Atom (AChar c)) (lit s')
  end.

(** The text captured so far by each named group ([Match.groupdict()]). *)
Abbreviation groups := (gmap string string).

Fixpoint lazy_star (a : atom) (s : string) (k : string → option groups)
    : option groups :=
  match k s with
  | Some g => Some g
  | None =>
      match s with
      | "" => None
      | String c s' => if atom_matches a c then lazy_star a s' k else None
      end
  end.

(** [consumed s s']: what was read of [s] when [s'] is what remains. *)
Definition consumed (s s' : string) : string :=
  Str.take (String.length s - String.length s') s.

Fixpoint rmatch (r : regex) (s : string) (g : groups)
    (k : string → groups → option groups) : option groups :=
  match r with
  | Eps => k s g
  | Atom a =>
      match s with
      | "" => None
      | String c s' => if atom_matches a c then k s' g else None
      end
  | LazyStar a => lazy_star a s (λ s', k s' g)
  | Seq r1 r2 => rmatch r1 s g (λ s' g', rmatch r2 s' g' k)
  | Group name r1 =>
      rmatch r1 s g (λ s' g', k s' (<[name := consumed s s']> g'))
  end.

(** The last continuation of [re.fullmatch]: the match has to reach the end
    of the subject. *)
Definition at_end (s : string) (g : groups) : option groups :=
  match s with
  | "" => Some g
  | String _ _ => None
  end.

(** [re.fullmatch(r, s)]. *)
Definition fullmatch (r : regex) (s : string) : option groups :=
  rmatch r s ∅ at_end.

End Re.

(** ** Exceptions and results *)

(** What [main] reads of a [requests.Response]: the status and, of the
    decoded JSON body, the [referenced_workflows] array.  Each element is a
    JSON object, unpacked into the keyword arguments of [from_github_api],
    which reads its [path] and [sha] members and ignores every other
    member. *)
Record RawWorkflow := { raw_path : string; raw_sha : string }.

Record Response := {
  status_code : Z;
  referenced_workflows : list RawWorkflow
}.

Inductive exn :=
| AssertionError
| TypeError
| KeyError
| Exception (message : string)
| ValueError (message : string)
| HTTPError (response : Response).

Inductive result (A : Type) :=
| Ok (a : A)
| Error (e : exn).
Arguments Ok {A} a.
Arguments Error {A} e.

(** ** [ReusableWorkflow] *)

Record ReusableWorkflow := {
  sha : string;
  repository : string;
  file_name : string;
  ref : string
}.

(** A frozen dataclass compares and hashes by its fields. *)
#[global] Instance ReusableWorkflow_eq_dec : EqDecision ReusableWorkflow.
Proof. solve_decision. Defined.

#[global] Instance ReusableWorkflow_countable : Countable ReusableWorkflow.
Proof.
  refine (inj_countable'
    (λ w, (sha w, repository w, file_name w, ref w))
    (λ t, let '(a, b, c, d) := t in
          {| sha := a; repository := b; file_name := c; ref := d |}) _).
  by intros [].
Defined.

(** The marker between the repository and the file name. *)
Definition marker : string := "/.github/workflows/".

(** The marker without its last character.  The marker occurs in a text
    [R +:+ marker +:+ t] before the offset [length R] exactly when it occurs
    in [R +:+ marker_stem]. *)
Definition marker_stem : string := "/.github/workflows".

(** [r"(?P<repository>.*?)/\.github/workflows/(?P<file_name>.*?)@(?P<ref>.*?)"] *)
Definition workflow_path_re : Re.regex :=
  Re.Seq (Re.Group "repository" (Re.LazyStar Re.ADot))
 (Re.Seq (Re.lit marker)
 (Re.Seq (Re.Group "file_name" (Re.LazyStar Re.ADot))
 (Re.Seq (Re.Atom (Re.AChar "@"))
         (Re.Group "ref" (Re.LazyStar Re.ADot))))).

(** The [groupdict()] of a path split as [r], [f] and [v]. *)
Definition path_groups (r f v : string) : Re.groups :=
  <["ref" := v]> (<["file_name" := f]> (<["repository" := r]> ∅)).

(** [ReusableWorkflow.from_github_api(path=..., sha=...)].  [assert match]
    raises [AssertionError]; [cls(sha=sha, **match.groupdict())] needs the
    three named groups. *)
Definition from_github_api (path sha_ : string) : result ReusableWorkflow :=
  match Re.fullmatch workflow_path_re path with
  | None => Error AssertionError
  | Some g =>
      match g !! "repository", g !! "file_name", g !! "ref" with
      | Some r, Some f, Some v =>
          Ok {| sha := sha_; repository := r; file_name := f; ref := v |}
      | _, _, _ => Error TypeError
      end
  end.

(** ** The effects of [main] *)

Abbreviation headers_t := (list (string * string)).

(** A program that may call [requests.get], [print], append to a file,
    return or raise. *)
Inductive prog (A : Type) :=
| Ret (a : A)
| Raise (e : exn)
| RequestsGet (url : string) (headers : headers_t) (k : Response → prog A)
| Print (line : string) (k : prog A)
| AppendFile (file data : string) (k : prog A).
Arguments Ret {A} a.
Arguments Raise {A} e.
Arguments RequestsGet {A} url headers k.
Arguments Print {A} line k.
Arguments AppendFile {A} file data k.

Inductive event :=
| EvGet (url : string) (headers : headers_t)
| EvPrint (line : string)
| EvAppend (file data : string).

Inductive outcome (A : Type) :=
| Returned (a : A)
| Raised (e : exn)
| NoResponse.   (** [requests.get] got no response (not a status) *)
Arguments Returned {A} a.
Arguments Raised {A} e.
Arguments NoResponse {A}.

(** [run p net]: the events and the outcome of [p] when the successive
    calls of [requests.get] receive the responses [net], in order. *)
Fixpoint run {A} (p : prog A) (net : list Response)
    : list event * outcome A :=
  match p with
  | Ret a => ([], Returned a)
  | Raise e => ([], Raised e)
  | RequestsGet url headers k =>
      match net with
      | [] => ([EvGet url headers], NoResponse)
      | r :: net' =>
          let '(evs, o) := run (k r) net' in (EvGet url headers :: evs, o)
      end
  | Print line k => let '(evs, o) := run k net in (EvPrint line :: evs, o)
  | AppendFile file data k =>
      let '(evs, o) := run k net in (EvAppend file data :: evs, o)
  end.

(** What the run shows: the printed lines and the file writes. *)
Definition output (evs : list event) : list event :=
  List.filter (λ e, match e with EvGet _ _ => false | _ => true end) evs.

(** The requests of a run. *)
Definition requests (evs : list event) : list (string * headers_t) :=
  omap (λ e, match e with EvGet u h => Some (u, h) | _ => None end) evs.

(** ** [main] *)

(** [Response.raise_for_status()]: [HTTPError] for a client (4xx) or a
    server (5xx) error status. *)
Definition raise_for_status (r : Response) : result unit :=
  if decide (400 ≤ status_code r < 600)%Z then Error (HTTPError r) else Ok ().

(** Truth value of [os.environ.get(...)]: set and not empty. *)
Definition truthy (o : option string) : bool :=
  match o with
  | Some s => Str.nonempty s
  | None => false
  end.

(** The list comprehension that builds [all_workflows]: the first entry
    that fails to parse raises. *)
Fixpoint parse_all (l : list RawWorkflow) : result (list ReusableWorkflow) :=
  match l with
  | [] => Ok []
  | w :: l' =>
      match from_github_api (raw_path w) (raw_sha w) with
      | Error e => Error e
      | Ok x =>
          match parse_all l' with
          | Error e => Error e
          | Ok xs => Ok (x :: xs)
          end
      end
  end.

Definition msg_forbidden : string :=
  "Ensure that GitHub job has `permissions: actions: read`. GitHub API call 403 forbidden"
  +:+ Str.nl +:+
  "https://docs.github.com/en/actions/security-guides/automatic-token-authentication#modifying-the-permissions-for-the-github_token".

Definition default_headers : headers_t :=
  [("Accept", "application/vnd.github+json");
   ("X-GitHub-Api-Version", "2022-11-28")].

Section Main.

(** [repr] of a [str], which [f"{name=}"] applies: Python's, not the
    repository's. *)
Variable repr : string → string.

(** The order in which Python iterates over a set: unspecified, it depends
    on the hashes of the elements. *)
Variable set_iter : gset ReusableWorkflow → list ReusableWorkflow.

Definition msg_repo_check_token (caller_repository : string) : string :=
  "caller_repository=" +:+ repr caller_repository +:+
  " not found. Check if `github-token` input has correct permissions".

Definition msg_repo_pass_token (caller_repository : string) : string :=
  "caller_repository=" +:+ repr caller_repository +:+
  " not found. If repository is private, pass `github-token` input to authenticate to GitHub".

Definition msg_run_not_found (caller_run_id : Z) : string :=
  "Workflow run not found. Check if caller_run_id=" +:+
  Str.of_int caller_run_id +:+ " is valid".

Definition msg_no_reference (file_name_ repository_ : string) : string :=
  "No reference found for reusable_workflow_file_name=" +:+ repr file_name_ +:+
  " reusable_workflow_repository=" +:+ repr repository_.

Definition msg_multiple_head (file_name_ repository_ : string) : string :=
  "Cannot resolve multiple versions found for reusable_workflow_file_name=" +:+
  repr file_name_ +:+ " reusable_workflow_repository=" +:+ repr repository_ +:+ ":".

(** One [message += f"\n• {workflow.ref} ({workflow.sha})"]. *)
Definition msg_multiple_line (w : ReusableWorkflow) : string :=
  Str.nl +:+ "• " +:+ ref w +:+ " (" +:+ sha w +:+ ")".

Definition msg_multiple (file_name_ repository_ : string)
    (ws : list ReusableWorkflow) : string :=
  foldl (λ message w, message +:+ msg_multiple_line w)
        (msg_multiple_head file_name_ repository_) ws.

(** The set comprehension of the entries for the wanted workflow. *)
Definition select (all_workflows : list ReusableWorkflow)
    (reusable_workflow_repository reusable_workflow_file_name : string)
    : gset ReusableWorkflow :=
  list_to_set
    (filter (λ w, repository w = reusable_workflow_repository
                  ∧ file_name w = reusable_workflow_file_name)
            all_workflows).

(** Lines 123-141: from [all_workflows] to the printed version. *)
Definition resolve (environ : gmap string string)
    (all_workflows : list ReusableWorkflow)
    (reusable_workflow_repository reusable_workflow_file_name : string)
    : prog unit :=
  let workflows :=
    select all_workflows reusable_workflow_repository
           reusable_workflow_file_name in
  if decide (size workflows = 0) then
    Raise (ValueError (msg_no_reference reusable_workflow_file_name
                                        reusable_workflow_repository))
  else if decide (1 < size workflows) then
    Raise (ValueError (msg_multiple reusable_workflow_file_name
                                    reusable_workflow_repository
                                    (set_iter workflows)))
  else
    match set_iter workflows with
    | [] => Raise KeyError
    | workflow :: _ =>
        Print ("Reusable workflow version: " +:+ sha workflow +:+
               " (ref: " +:+ ref workflow +:+ ")")
          (let output := environ !! "GITHUB_OUTPUT" in
           if truthy output
           then AppendFile (default "" output)
                           ("sha=" +:+ sha workflow +:+ Str.nl) (Ret ())
           else Ret ())
    end.

Definition main (environ : gmap string string)
    (caller_repository : string) (caller_run_id : Z)
    (reusable_workflow_repository reusable_workflow_file_name : string)
    (github_api_url : string) : prog unit :=
  let token := environ !! "GH_TOKEN" in
  let headers :=
    if truthy token
    then default_headers ++ [("Authorization", "Bearer " +:+ default "" token)]
    else default_headers in
  RequestsGet
    (github_api_url +:+ "/repos/" +:+ caller_repository +:+
     "/actions/runs/" +:+ Str.of_int caller_run_id)
    headers
    (λ response,
      match raise_for_status response with
      | Error (HTTPError r as exception) =>
          if decide (status_code r = 403%Z) then
            Raise (Exception msg_forbidden)
          else if decide (status_code r = 404%Z) then
            RequestsGet
              (github_api_url +:+ "/repos/" +:+ caller_repository)
              headers
              (λ response,
                if decide (status_code response = 404%Z) then
                  if truthy token then
                    Raise (Exception (msg_repo_check_token caller_repository))
                  else
                    Raise (Exception (msg_repo_pass_token caller_repository))
                else
                  Raise (Exception (msg_run_not_found caller_run_id)))
          else Raise exception
      | Error e => Raise e
      | Ok _ =>
          match parse_all (referenced_workflows response) with
          | Error e => Raise e
          | Ok all_workflows =>
              resolve environ all_workflows reusable_workflow_repository
                      reusable_workflow_file_name
          end
      end).

End Main.

(** Names for what [main] sends: the headers and the two addresses. *)
Definition sent_headers (environ : gmap string string) : headers_t :=
  if truthy (environ !! "GH_TOKEN")
  then default_headers
       ++ [("Authorization", "Bearer " +:+ default "" (environ !! "GH_TOKEN"))]
  else default_headers.

Definition run_url (github_api_url caller_repository : string)
    (caller_run_id : Z) : string :=
  github_api_url +:+ "/repos/" +:+ caller_repository +:+
  "/actions/runs/" +:+ Str.of_int caller_run_id.

Definition repo_url (github_api_url caller_repository : string) : string :=
  github_api_url +:+ "/repos/" +:+ caller_repository.

(** The events of a run that resolves to [w]: the printed line and, when
    [GITHUB_OUTPUT] is set, the line appended to that file. *)
Definition resolved_events (environ : gmap string string)
    (w : ReusableWorkflow) : list event :=
  EvPrint ("Reusable workflow version: " +:+ sha w +:+
           " (ref: " +:+ ref w +:+ ")")
  :: (if truthy (environ !! "GITHUB_OUTPUT")
      then [EvAppend (default "" (environ !! "GITHUB_OUTPUT"))
                     ("sha=" +:+ sha w +:+ Str.nl)]
      else []).


(** ** The callbacks of the command line

    [typer] passes [caller_repository] through
    [validate_github_repository] and [github_api_url] through
    [parse_github_api_url] before it calls [main]. *)

Module PyStr.

(** [all(p(c) for c in s)]. *)
Fixpoint all (p : ascii → bool) (s : string) : bool :=
  match s with
  | "" => true
  | String c s' => p c && all p s'
  end.

(** [s.count(c)] for a character [c]. *)
Fixpoint count (c : ascii) (s : string) : nat :=
  match s with
  | "" => 0
  | String d s' => (if Ascii.eqb d c then 1 else 0) + count c s'
  end.

(** [s.removesuffix(suffix)]: [s] without [suffix] when [suffix] is not
    empty and [s] ends with it, [s] otherwise. *)
Definition removesuffix (suffix s : string) : string :=
  if Str.nonempty suffix && Str.ends suffix s
  then Str.take (String.length s - String.length suffix) s
  else s.

End PyStr.

(** The second fragment of [re]: character classes and the greedy [+].
    No group is captured, so the matcher answers yes or no.  A greedy
    repetition first tries to read one more character and falls back to
    its continuation. *)

Module ReClass.

Inductive item :=
| Range (lo hi : ascii)   (** [lo-hi] *)
| Single (c : ascii).     (** a character, also an escaped one, [\-] *)

Definition item_matches (i : item) (c : ascii) : bool :=
  match i with
  | Range lo hi =>
      (N_of_ascii lo <=? N_of_ascii c)%N && (N_of_ascii c <=? N_of_ascii hi)%N
  | Single d => Ascii.eqb c d
  end.

(** [[...]]: one of the items. *)
Definition class_matches (cl : list item) (c : ascii) : bool :=
  existsb (λ i, item_matches i c) cl.

Inductive regex :=
| Eps
| Chr (c : ascii)
| Plus (cl : list item)      (** [[...]+] *)
| Seq (r1 r2 : regex).

Fixpoint greedy_star (cl : list item) (s : string) (k : string → bool)
    : bool :=
  match s with
  | "" => k ""
  | String c s' =>
      if class_matches cl c then greedy_star cl s' k || k s else k s
  end.

Fixpoint rmatch (r : regex) (s : string) (k : string → bool) : bool :=
  match r with
  | Eps => k s
  | Chr c =>
      match s with
      | "" => false
      | String d s' => Ascii.eqb d c && k s'
      end
  | Plus cl =>
      match s with
      | "" => false
      | String c s' => class_matches cl c && greedy_star cl s' k
      end
  | Seq r1 r2 => rmatch r1 s (λ s', rmatch r2 s' k)
  end.

(** [re.fullmatch(r, s)] as a truth value. *)
Definition fullmatch (r : regex) (s : string) : bool :=
  rmatch r s (λ s', negb (Str.nonempty s')).

End ReClass.

(** [[a-zA-Z0-9\-]] and [[a-zA-Z0-9.\-_]]. *)
Definition owner_class : list ReClass.item :=
  [ReClass.Range "a" "z"; ReClass.Range "A" "Z"; ReClass.Range "0" "9";
   ReClass.Single "-"].

Definition name_class : list ReClass.item :=
  [ReClass.Range "a" "z"; ReClass.Range "A" "Z"; ReClass.Range "0" "9";
   ReClass.Single "."; ReClass.Single "-"; ReClass.Single "_"].

(** [r"[a-zA-Z0-9\-]+/[a-zA-Z0-9.\-_]+"] *)
Definition github_repository_re : ReClass.regex :=
  ReClass.Seq (ReClass.Plus owner_class)
 (ReClass.Seq (ReClass.Chr "/") (ReClass.Plus name_class)).

(** What a [typer] callback gives: the value, or [typer.BadParameter]. *)
Inductive checked :=
| Accepted (value : string)
| BadParameter (message : string).

Definition validate_github_repository (value : string) : checked :=
  if negb (ReClass.fullmatch github_repository_re value)
  then BadParameter ("'" +:+ value +:+ "' is not a valid GitHub repository name")
  else Accepted value.

Definition parse_github_api_url (value : string) : string :=
  PyStr.removesuffix "/" value.

(** * Part II: properties *)

(** ** Strings *)

Section StrFacts.

Import Str.

Lemma sapp_cons c s t : String c s +:+ t = String c (s +:+ t).
Proof. reflexivity. Qed.

Lemma sapp_nil_r s : s +:+ "" = s.
Proof. induction s as [|c s IH]; [done|]. by rewrite sapp_cons, IH. Qed.

Lemma sapp_assoc s t u : (s +:+ t) +:+ u = s +:+ t +:+ u.
Proof. induction s as [|c s IH]; [done|]. by rewrite !sapp_cons, IH. Qed.

Lemma slength_app s t :
  String.length (s +:+ t) = String.length s + String.length t.
Proof.
  induction s as [|c s IH]; [done|]. rewrite sapp_cons. simpl. by rewrite IH.
Qed.

Lemma has_app c s t : has c (s +:+ t) = has c s || has c t.
Proof.
  induction s as [|d s IH]; [done|].
  rewrite sapp_cons. simpl. rewrite IH. by rewrite orb_assoc.
Qed.

Lemma starts_app m s : starts m (m +:+ s) = true.
Proof.
  induction m as [|a m IH]; [done|].
  rewrite sapp_cons. simpl. by rewrite Ascii.eqb_refl, IH.
Qed.

Lemma starts_inv m s : starts m s = true → ∃ t, s = m +:+ t.
Proof.
  revert s. induction m as [|a m IH]; intros s H.
  - by exists s.
  - destruct s as [|b s]; [done|]. simpl in H.
    apply andb_true_iff in H as [Hab Hm].
    apply Ascii.eqb_eq in Hab as ->.
    destruct (IH _ Hm) as [t ->]. by exists t.
Qed.

(** Only the first [length m] characters of [s] matter to [starts m s]. *)
Lemma starts_app_long m s t :
  String.length m ≤ String.length s → starts m (s +:+ t) = starts m s.
Proof.
  revert s. induction m as [|a m IH]; intros s Hlen; [by destruct s|].
  destruct s as [|b s]; simpl in Hlen; [lia|].
  rewrite sapp_cons. simpl. rewrite IH by lia. done.
Qed.

Lemma take_app s t : take (String.length s) (s +:+ t) = s.
Proof.
  induction s as [|c s IH]; [by destruct t|].
  rewrite sapp_cons. simpl. by rewrite IH.
Qed.

Lemma occurs_app_r m s t : occurs m (s +:+ t) = false → occurs m t = false.
Proof.
  induction s as [|c s IH]; [done|].
  rewrite sapp_cons. simpl. intros [_ H]%orb_false_iff. auto.
Qed.

Lemma starts_app_l m s t : starts m s = true → starts m (s +:+ t) = true.
Proof.
  revert s. induction m as [|a m IH]; intros s H; [done|].
  destruct s as [|b s]; [done|]. rewrite sapp_cons. simpl in *.
  apply andb_true_iff in H as [-> H]. by rewrite IH.
Qed.

Lemma occurs_app_l m s t : occurs m (s +:+ t) = false → occurs m s = false.
Proof.
  induction s as [|c s IH].
  - intros H. destruct m as [|a m]; [by destruct t|done].
  - rewrite sapp_cons. simpl. intros [H1 H2]%orb_false_iff.
    rewrite (IH H2), orb_false_r.
    destruct (starts m (String c s)) eqn:E; [|done].
    apply (starts_app_l _ _ t) in E. rewrite sapp_cons in E. congruence.
Qed.

Lemma occurs_starts m s : occurs m s = false → starts m s = false.
Proof. destruct s; simpl; by intros [H _]%orb_false_iff. Qed.

Lemma occurs_of_app m s t : occurs m (s +:+ m +:+ t) = true.
Proof.
  induction s as [|c s IH].
  - simpl. destruct (m +:+ t) eqn:E; simpl; rewrite <- E, starts_app; done.
  - rewrite sapp_cons. simpl. rewrite IH. by rewrite orb_true_r.
Qed.

Lemma occurs_cons m c s :
  occurs m (String c s) = starts m (String c s) || occurs m s.
Proof. reflexivity. Qed.

(** When [m] starts a text [u +:+ t] and is not shorter than [u], then [u]
    is the beginning of [m] and [t] starts with the rest of [m]. *)
Lemma starts_app_drop m u t :
  starts m (u +:+ t) = true → String.length u ≤ String.length m →
  u = take (String.length u) m ∧ starts (drop (String.length u) m) t = true.
Proof.
  revert m. induction u as [|c u IH]; intros m H Hlen.
  - by destruct m.
  - destruct m as [|a m]; simpl in Hlen; [lia|].
    rewrite sapp_cons in H. simpl in H. apply andb_true_iff in H as [Hc H].
    apply Ascii.eqb_eq in Hc as ->.
    destruct (IH m H) as [Hu Ht]; [lia|]. simpl. by rewrite <- Hu.
Qed.

Lemma ends_inv m s : ends m s = true → ∃ u, s = u +:+ m.
Proof.
  induction s as [|c s IH].
  - intros H. destruct m; [by exists ""|done].
  - change (ends m (String c s))
      with (String.eqb (String c s) m || ends m s).
    intros [<-%String.eqb_eq|H]%orb_true_iff; [by exists ""|].
    destruct (IH H) as [u ->]. by exists (String c u).
Qed.

(** A text that holds [c] splits at the first [c]. *)
Lemma has_split c s :
  has c s = true → ∃ u v, s = u +:+ String c v ∧ has c u = false.
Proof.
  induction s as [|d s IH]; [done|]. simpl.
  destruct (Ascii.eqb_spec d c) as [->|Hne]; simpl.
  - intros _. by exists "", s.
  - intros (u & v & -> & Hu)%IH. exists (String d u), v. split; [done|].
    simpl. rewrite Hu. by destruct (Ascii.eqb_spec d c).
Qed.

End StrFacts.

(** ** The marker *)

Lemma marker_stem_slash : marker = marker_stem +:+ "/".
Proof. reflexivity. Qed.

(** The marker is not the start of a text that goes on with the stem,
    unless it is the start of the same text going on with the marker. *)
Lemma starts_marker_stem c s t :
  Str.starts marker (String c s +:+ marker +:+ t)
  = Str.starts marker (String c s +:+ marker_stem).
Proof.
  replace (String c s +:+ marker +:+ t)
    with ((String c s +:+ marker_stem) +:+ "/" +:+ t)
    by (by rewrite sapp_assoc).
  apply starts_app_long. rewrite slength_app. simpl. lia.
Qed.

(** The marker overlaps itself by its first and last character only: no
    other end of the marker starts the stem. *)
Lemma marker_overlap k :
  1 ≤ k ≤ 17 → Str.starts (Str.drop k marker) marker_stem = false.
Proof.
  intros Hk.
  assert (forallb (λ k, negb (Str.starts (Str.drop k marker) marker_stem))
                  (seq 1 17) = true) as H by reflexivity.
  rewrite forallb_forall in H. apply negb_true_iff, H, in_seq. lia.
Qed.

Lemma starts_marker_short r :
  Str.starts marker r = false → Str.ends marker_stem r = false → r ≠ "" →
  Str.starts marker (r +:+ marker_stem) = false.
Proof.
  intros Hs He Hne.
  destruct (Str.starts marker (r +:+ marker_stem)) eqn:E; [|done].
  destruct (decide (String.length marker ≤ String.length r)) as [Hlen|Hlen].
  { rewrite starts_app_long in E by done. congruence. }
  apply starts_app_drop in E as [Hr Hd]; [|lia].
  change (String.length marker) with 19 in Hlen.
  destruct (decide (String.length r = 18)) as [H18|H18].
  - rewrite H18 in Hr. change (Str.take 18 marker) with marker_stem in Hr.
    by subst r.
  - rewrite marker_overlap in Hd; [done|].
    destruct r; [done|]. simpl in *. lia.
Qed.

(** The marker that follows [r] is the first of the text exactly when [r]
    neither holds the marker nor ends with the stem. *)
Lemma first_marker_iff r :
  Str.occurs marker (r +:+ marker_stem) = false
  ↔ Str.occurs marker r = false ∧ Str.ends marker_stem r = false.
Proof.
  split.
  - intros H. split; [by apply occurs_app_l in H|].
    destruct (Str.ends marker_stem r) eqn:E; [|done].
    apply ends_inv in E as [u ->].
    rewrite sapp_assoc in H.
    change (marker_stem +:+ marker_stem)
      with (marker +:+ ".github/workflows") in H.
    by rewrite occurs_of_app in H.
  - intros [Ho He]. induction r as [|c r IH]; [done|].
    pose proof (occurs_starts _ _ Ho) as Hs.
    rewrite occurs_cons in Ho. apply orb_false_iff in Ho as [_ Ho].
    simpl in He. apply orb_false_iff in He as [He1 He].
    rewrite sapp_cons, occurs_cons, (IH Ho He), orb_false_r.
    rewrite <- sapp_cons. apply starts_marker_short; [done| |done].
    simpl. by rewrite He1, He.
Qed.

(** The first occurrence of the marker that has an [@] after it. *)
Lemma first_marker r t :
  Str.has "@" t = true →
  ∃ r0 t0, r +:+ marker +:+ t = r0 +:+ marker +:+ t0
           ∧ Str.occurs marker (r0 +:+ marker_stem) = false
           ∧ Str.has "@" t0 = true.
Proof.
  intros Ht. induction r as [|c r IH].
  - by exists "", t.
  - destruct (Str.starts marker (String c r +:+ marker +:+ t)) eqn:Hs.
    + destruct (starts_inv _ _ Hs) as [t0 Ht0]. exists "", t0.
      split; [done|]. split; [done|].
      assert (Str.has "@" (marker +:+ t0) = true) as H.
      { rewrite <- Ht0, !has_app, Ht. by rewrite !orb_true_r. }
      by rewrite has_app in H.
    + destruct IH as (r0 & t0 & Heq & Hocc & Hat).
      exists (String c r0), t0. rewrite !sapp_cons, Heq. split; [done|].
      split; [|done].
      rewrite sapp_cons in Hs. rewrite Heq, <- sapp_cons in Hs.
      rewrite starts_marker_stem in Hs.
      rewrite sapp_cons in Hs. simpl. simpl in Hs.
      by rewrite Hs, Hocc.
Qed.

(** ** The matcher *)

Section ReFacts.

Import Re.

Lemma rmatch_seq r1 r2 s g k :
  rmatch (Seq r1 r2) s g k = rmatch r1 s g (λ s' g', rmatch r2 s' g' k).
Proof. reflexivity. Qed.

Lemma rmatch_group_star name s g k :
  rmatch (Group name (LazyStar ADot)) s g k
  = lazy_star ADot s (λ s', k s' (<[name := consumed s s']> g)).
Proof. reflexivity. Qed.

Lemma rmatch_char c s g k : rmatch (Atom (AChar c)) (String c s) g k = k s g.
Proof. simpl. by rewrite Ascii.eqb_refl. Qed.

Lemma rmatch_lit_app m s g k : rmatch (lit m) (m +:+ s) g k = k s g.
Proof.
  induction m as [|a m IH]; [done|].
  rewrite sapp_cons. simpl. by rewrite Ascii.eqb_refl.
Qed.

Lemma rmatch_lit_fail m s g k :
  Str.starts m s = false → rmatch (lit m) s g k = None.
Proof.
  revert s. induction m as [|a m IH]; intros s H; [done|].
  destruct s as [|b s]; [done|]. simpl in *.
  rewrite (Ascii.eqb_sym b a).
  destruct (Ascii.eqb a b); [by apply IH|done].
Qed.

Lemma rmatch_lit_inv m s g k x :
  rmatch (lit m) s g k = Some x → ∃ t, s = m +:+ t ∧ k t g = Some x.
Proof.
  revert s. induction m as [|a m IH]; intros s H.
  - by exists s.
  - destruct s as [|b s]; [done|]. simpl in H.
    destruct (Ascii.eqb_spec b a) as [->|]; [|done].
    destruct (IH _ H) as (t & -> & Hk). by exists t.
Qed.

Lemma consumed_app u v : consumed (u +:+ v) v = u.
Proof.
  unfold consumed. rewrite slength_app.
  replace (String.length u + String.length v - String.length v)
    with (String.length u) by lia.
  apply take_app.
Qed.

Lemma lazy_star_hit a s k x : k s = Some x → lazy_star a s k = Some x.
Proof. intros H. destruct s; simpl; by rewrite H. Qed.

(** A lazy star goes over a prefix where the continuation fails. *)
Lemma lazy_star_skip u v k :
  Str.has Str.LF u = false →
  (∀ u1 c u2, u = u1 +:+ String c u2 → k (String c u2 +:+ v) = None) →
  lazy_star ADot (u +:+ v) k = lazy_star ADot v k.
Proof.
  induction u as [|c u IH]; intros Hlf Hk; [done|].
  rewrite sapp_cons. simpl.
  rewrite <- sapp_cons, (Hk "" c u eq_refl).
  simpl in Hlf. apply orb_false_iff in Hlf as [-> Hlf]. simpl.
  apply IH; [done|]. intros u1 d u2 ->. by apply (Hk (String c u1) d u2).
Qed.

(** What a lazy star has read holds no line feed. *)
Lemma lazy_star_inv s k x :
  lazy_star ADot s k = Some x →
  ∃ u v, s = u +:+ v ∧ Str.has Str.LF u = false ∧ k v = Some x.
Proof.
  induction s as [|c s IH]; simpl.
  - destruct (k "") eqn:E; [|done]. intros [= <-]. by exists "", "".
  - destruct (k (String c s)) eqn:E.
    + intros [= <-]. by exists "", (String c s).
    + destruct (Ascii.eqb c Str.LF) eqn:Hc; simpl; [done|].
      intros (u & v & -> & Hu & Hv)%IH. exists (String c u), v.
      split; [done|]. simpl. by rewrite Hc, Hu.
Qed.

Lemma group_star_skip name u v g k x :
  Str.has Str.LF u = false →
  (∀ u1 c u2 g', u = u1 +:+ String c u2 → k (String c u2 +:+ v) g' = None) →
  k v (<[name := u]> g) = Some x →
  rmatch (Group name (LazyStar ADot)) (u +:+ v) g k = Some x.
Proof.
  intros Hlf Hk Hv. rewrite rmatch_group_star, lazy_star_skip; [|done|].
  - apply lazy_star_hit. by rewrite consumed_app.
  - intros u1 c u2 Hu. by apply (Hk u1).
Qed.

Lemma group_star_inv name s g k x :
  rmatch (Group name (LazyStar ADot)) s g k = Some x →
  ∃ u v, s = u +:+ v ∧ Str.has Str.LF u = false
         ∧ k v (<[name := u]> g) = Some x.
Proof.
  rewrite rmatch_group_star. intros (u & v & -> & Hu & Hk)%lazy_star_inv.
  rewrite consumed_app in Hk. by exists u, v.
Qed.

End ReFacts.

(** ** The parser: [from_github_api] *)

Section Parser.

Import Re.

(** The match of a path whose first marker follows [r] and whose first [@]
    after that marker follows [f]. *)
Lemma fullmatch_path r f v :
  Str.has Str.LF r = false →
  Str.has Str.LF f = false →
  Str.has Str.LF v = false →
  Str.occurs marker (r +:+ marker_stem) = false →
  Str.has "@" f = false →
  fullmatch workflow_path_re (r +:+ marker +:+ f +:+ String "@" v)
  = Some (path_groups r f v).
Proof.
  intros Hr Hf Hv Hocc Hat. unfold fullmatch, workflow_path_re.
  rewrite rmatch_seq. apply group_star_skip; [done|..].
  - intros u1 c u2 g' ->. rewrite rmatch_seq. apply rmatch_lit_fail.
    rewrite starts_marker_stem.
    rewrite sapp_assoc in Hocc. by apply occurs_app_r, occurs_starts in Hocc.
  - rewrite rmatch_seq, rmatch_lit_app, rmatch_seq.
    apply group_star_skip; [done|..].
    + intros u1 c u2 g' ->. rewrite rmatch_seq, sapp_cons. simpl.
      rewrite has_app in Hat. apply orb_false_iff in Hat as [_ Hat].
      simpl in Hat. apply orb_false_iff in Hat as [-> _]. done.
    + rewrite rmatch_seq, rmatch_char.
      rewrite <- (sapp_nil_r v) at 1. apply group_star_skip; [done| |done].
      intros u1 c u2 g' _. by rewrite sapp_cons.
Qed.

(** A path that matches holds no line feed and has the shape. *)
Lemma fullmatch_inv path g :
  fullmatch workflow_path_re path = Some g →
  Str.has Str.LF path = false
  ∧ ∃ r f v, path = r +:+ marker +:+ f +:+ String "@" v.
Proof.
  unfold fullmatch, workflow_path_re. rewrite rmatch_seq.
  intros (r & t1 & -> & Hr & H)%group_star_inv.
  rewrite rmatch_seq in H. apply rmatch_lit_inv in H as (t2 & -> & H).
  rewrite rmatch_seq in H. apply group_star_inv in H as (f & t3 & -> & Hf & H).
  rewrite rmatch_seq in H. destruct t3 as [|c t3]; [done|]. simpl rmatch at 1 in H.
  destruct (Ascii.eqb_spec c "@") as [->|]; [|done].
  apply group_star_inv in H as (v & t4 & -> & Hv & H).
  destruct t4; [|done]. rewrite sapp_nil_r. split; [|by exists r, f, v].
  rewrite !has_app. simpl. by rewrite Hr, Hf, Hv.
Qed.

(** Every path with the shape and no line feed splits at its first marker
    and at the first [@] after it. *)
Lemma path_split r f v :
  ∃ r0 f0 v0,
    r +:+ marker +:+ f +:+ String "@" v = r0 +:+ marker +:+ f0 +:+ String "@" v0
    ∧ Str.occurs marker (r0 +:+ marker_stem) = false
    ∧ Str.has "@" f0 = false.
Proof.
  destruct (first_marker r (f +:+ String "@" v)) as (r0 & t0 & Heq & Hocc & Hat).
  { rewrite has_app. simpl. by rewrite orb_true_r. }
  destruct (has_split _ _ Hat) as (f0 & v0 & -> & Hf0).
  by exists r0, f0, v0.
Qed.

Lemma from_github_api_path r f v c :
  Str.has Str.LF r = false →
  Str.has Str.LF f = false →
  Str.has Str.LF v = false →
  Str.occurs marker (r +:+ marker_stem) = false →
  Str.has "@" f = false →
  from_github_api (r +:+ marker +:+ f +:+ String "@" v) c
  = Ok {| sha := c; repository := r; file_name := f; ref := v |}.
Proof.
  intros. unfold from_github_api. by rewrite fullmatch_path.
Qed.

(** [from_github_api] raises [AssertionError] or returns; what it returns
    is the split of the path at its first marker and at the first [@] after
    it. *)
Lemma from_github_api_inv path c :
  from_github_api path c = Error AssertionError
  ∨ ∃ r f v,
      from_github_api path c
      = Ok {| sha := c; repository := r; file_name := f; ref := v |}
      ∧ path = r +:+ marker +:+ f +:+ String "@" v
      ∧ Str.has Str.LF path = false
      ∧ Str.occurs marker (r +:+ marker_stem) = false
      ∧ Str.has "@" f = false.
Proof.
  unfold from_github_api.
  destruct (fullmatch workflow_path_re path) as [g|] eqn:Hm; [right|by left].
  destruct (fullmatch_inv _ _ Hm) as (Hlf & r & f & v & ->).
  destruct (path_split r f v) as (r0 & f0 & v0 & Heq & Hocc & Hat).
  rewrite Heq in Hlf, Hm |- *.
  pose proof Hlf as Hlf'. rewrite !has_app in Hlf'. simpl in Hlf'.
  apply orb_false_iff in Hlf' as [Hr [Hf Hv]%orb_false_iff].
  rewrite fullmatch_path in Hm by done. injection Hm as <-.
  by exists r0, f0, v0.
Qed.

End Parser.

(** ** Claims about the parser *)

(** C1, as stated, fails in two ways.  A repository that ends with
    [/.github/workflows] does not contain the marker, yet the marker starts
    inside it: the parser cuts there.  A line feed in the ref is not
    matched by [.]: the parser raises. *)
Lemma from_github_api_valid_shape_counterexample :
  (Str.occurs marker "x/.github/workflows" = false
   ∧ Str.has "/" "f" = false ∧ Str.has "@" "f" = false
   ∧ from_github_api ("x/.github/workflows" +:+ marker +:+ "f" +:+ String "@" "v1")
                     "abc"
     = Ok {| sha := "abc"; repository := "x";
             file_name := ".github/workflows/f"; ref := "v1" |}
   ∧ from_github_api ("x/.github/workflows" +:+ marker +:+ "f" +:+ String "@" "v1")
                     "abc"
     ≠ Ok {| sha := "abc"; repository := "x/.github/workflows";
             file_name := "f"; ref := "v1" |})
  ∧ (Str.occurs marker "acme/infra" = false
     ∧ Str.has "/" "f" = false ∧ Str.has "@" "f" = false
     ∧ from_github_api ("acme/infra" +:+ marker +:+ "f" +:+ String "@" Str.nl)
                       "abc"
       = Error AssertionError).
Proof. repeat split; discriminate. Qed.

(** C1 (amended): for every path [R/.github/workflows/F@Ref] in which [R],
    [F] and [Ref] hold no line feed, [R] neither holds the marker nor ends
    with [/.github/workflows], and [F] holds no [@], and for every commit
    identifier [C], parsing succeeds and yields the reference with
    repository [R], file name [F], ref [Ref] and commit [C]. *)
Theorem from_github_api_valid_shape R F Ref C :
  Str.has Str.LF R = false →
  Str.has Str.LF F = false →
  Str.has Str.LF Ref = false →
  Str.occurs marker R = false →
  Str.ends marker_stem R = false →
  Str.has "@" F = false →
  from_github_api (R +:+ marker +:+ F +:+ String "@" Ref) C
  = Ok {| sha := C; repository := R; file_name := F; ref := Ref |}.
Proof.
  intros HR HF HRef Ho He Hat.
  apply from_github_api_path; [done..| |done]. by apply first_marker_iff.
Qed.

Lemma from_github_api_valid_shape_witness :
  from_github_api "acme/infra/.github/workflows/build.yaml@v2.0.0" "abc123"
  = Ok {| sha := "abc123"; repository := "acme/infra";
          file_name := "build.yaml"; ref := "v2.0.0" |}.
Proof.
  apply (from_github_api_valid_shape "acme/infra" "build.yaml" "v2.0.0" "abc123");
    reflexivity.
Defined.

(** C6, as stated, fails: with two [@] after the marker the file name ends
    at the first one, not at the last. *)
Lemma from_github_api_last_at_counterexample :
  from_github_api "a/b/.github/workflows/f@x@y" "abc"
  = Ok {| sha := "abc"; repository := "a/b"; file_name := "f"; ref := "x@y" |}
  ∧ from_github_api "a/b/.github/workflows/f@x@y" "abc"
    ≠ Ok {| sha := "abc"; repository := "a/b"; file_name := "f@x"; ref := "y" |}.
Proof. split; [reflexivity|discriminate]. Qed.

(** C6 (amended): whenever parsing succeeds, the split between file name
    and ref is governed by the first [@] after the first marker: the
    repository is what precedes the first marker of the path (the marker
    does not occur in the repository followed by the stem of the marker),
    the file name is everything between that marker and the first [@]
    after it (it holds no [@]), and the ref is the whole remainder after
    that [@]. *)
Theorem from_github_api_first_at path C w :
  from_github_api path C = Ok w →
  path = repository w +:+ marker +:+ file_name w +:+ String "@" (ref w)
  ∧ Str.occurs marker (repository w +:+ marker_stem) = false
  ∧ Str.has "@" (file_name w) = false.
Proof.
  intros H.
  destruct (from_github_api_inv path C) as [E|(r & f & v & E & Hp & _ & Ho & Ha)];
    rewrite E in H; [done|].
  by injection H as <-.
Qed.

Lemma from_github_api_first_at_witness :
  "a/b/.github/workflows/f@x@y" = "a/b" +:+ marker +:+ "f" +:+ String "@" "x@y"
  ∧ Str.occurs marker ("a/b" +:+ marker_stem) = false
  ∧ Str.has "@" "f" = false.
Proof.
  apply (from_github_api_first_at "a/b/.github/workflows/f@x@y" "abc"
           {| sha := "abc"; repository := "a/b"; file_name := "f"; ref := "x@y" |}).
  reflexivity.
Defined.

(** C7, as stated, fails: every star of the pattern accepts the empty
    text, and the commit is taken as it is given. *)
Lemma from_github_api_nonempty_counterexample :
  from_github_api "/.github/workflows/@" ""
  = Ok {| sha := ""; repository := ""; file_name := ""; ref := "" |}.
Proof. reflexivity. Qed.

(** C7 (amended): for every input on which parsing succeeds, the commit of
    the reference is the given one, and its repository, file name and ref
    are texts without line feed, each possibly empty, that make up the
    path: [path = repository/.github/workflows/file_name@ref]. *)
Theorem from_github_api_fields path C w :
  from_github_api path C = Ok w →
  sha w = C
  ∧ path = repository w +:+ marker +:+ file_name w +:+ String "@" (ref w)
  ∧ Str.has Str.LF (repository w) = false
  ∧ Str.has Str.LF (file_name w) = false
  ∧ Str.has Str.LF (ref w) = false.
Proof.
  intros H.
  destruct (from_github_api_inv path C) as [E|(r & f & v & E & Hp & Hlf & _)];
    rewrite E in H; [done|].
  injection H as <-. simpl. split; [done|]. split; [done|].
  rewrite Hp, !has_app in Hlf. simpl in Hlf.
  by apply orb_false_iff in Hlf as [? [? ?]%orb_false_iff].
Qed.

Lemma from_github_api_fields_witness :
  "" = ""
  ∧ "/.github/workflows/@" = "" +:+ marker +:+ "" +:+ String "@" ""
  ∧ Str.has Str.LF "" = false
  ∧ Str.has Str.LF "" = false
  ∧ Str.has Str.LF "" = false.
Proof.
  apply (from_github_api_fields "/.github/workflows/@" ""
           {| sha := ""; repository := ""; file_name := ""; ref := "" |}).
  reflexivity.
Defined.

(** A path without the shape [<repository>/.github/workflows/<file_name>@<ref>]
    does not parse. *)
Lemma from_github_api_no_shape path C :
  (¬ ∃ r f v, path = r +:+ marker +:+ f +:+ String "@" v) →
  from_github_api path C = Error AssertionError.
Proof.
  intros Hno.
  destruct (from_github_api_inv path C) as [E|(r & f & v & _ & Hp & _)]; [done|].
  destruct Hno. by exists r, f, v.
Qed.

(** X14: the parser fails exactly on the paths that hold a line feed or do
    not have the shape [<repository>/.github/workflows/<file_name>@<ref>]. *)
Lemma from_github_api_error_iff path C :
  from_github_api path C = Error AssertionError
  ↔ Str.has Str.LF path = true
    ∨ ¬ ∃ r f v, path = r +:+ marker +:+ f +:+ String "@" v.
Proof.
  split.
  - intros E. destruct (Str.has Str.LF path) eqn:Hlf; [by left|right].
    intros (r & f & v & ->).
    destruct (path_split r f v) as (r0 & f0 & v0 & Heq & Hocc & Hat).
    rewrite Heq in Hlf, E. rewrite !has_app in Hlf. simpl in Hlf.
    apply orb_false_iff in Hlf as [? [? ?]%orb_false_iff].
    by rewrite from_github_api_path in E.
  - intros [Hlf|Hno]; [|by apply from_github_api_no_shape].
    destruct (from_github_api_inv path C) as [E|(r & f & v & _ & _ & Hlf' & _)];
      [done|congruence].
Qed.

(** The file name may hold a [/]: the pattern does not forbid it. *)
Example from_github_api_file_name_slash :
  from_github_api "a/b/.github/workflows/x/y@v1" "abc"
  = Ok {| sha := "abc"; repository := "a/b"; file_name := "x/y"; ref := "v1" |}.
Proof. reflexivity. Qed.

(** ** The resolver: [main] *)

Section Resolver.

Variable repr : string → string.
Variable set_iter : gset ReusableWorkflow → list ReusableWorkflow.

(** Iterating over a set visits each of its elements once. *)
Hypothesis set_iter_perm : ∀ X, set_iter X ≡ₚ elements X.

Implicit Types (environ : gmap string string) (net : list Response).
Implicit Types (w : ReusableWorkflow) (ws : list ReusableWorkflow).

Lemma elem_of_select ws r f w :
  w ∈ select ws r f ↔ w ∈ ws ∧ repository w = r ∧ file_name w = f.
Proof using Type.
  unfold select. rewrite elem_of_list_to_set, list_elem_of_filter.
  split; [by intros [[? ?] ?]|by intros (? & ? & ?)].
Qed.




Lemma select_singleton ws r f w :
  w ∈ ws → repository w = r → file_name w = f →
  (∀ w', w' ∈ ws → repository w' = r → file_name w' = f → w' = w) →
  select ws r f = {[ w ]}.
Proof using Type.
  intros Hw Hr Hf Hall. apply set_eq. intros w'.
  rewrite elem_of_select, elem_of_singleton. split.
  - intros (Hw' & Hr' & Hf'). by apply Hall.
  - by intros ->.
Qed.

(** No entry for the wanted workflow. *)
Lemma resolve_none environ ws r f net :
  (∀ w, w ∈ ws → ¬ (repository w = r ∧ file_name w = f)) →
  run (resolve repr set_iter environ ws r f) net
  = ([], Raised (ValueError (msg_no_reference repr f r))).
Proof using Type.
  intros Hno. unfold resolve.
  assert (select ws r f = ∅) as ->; [|done].
  apply set_eq. intros w. rewrite elem_of_select, elem_of_empty.
  split; [|done]. intros (Hw & Hr & Hf). by apply (Hno w).
Qed.

(** One entry for the wanted workflow, maybe repeated. *)
Lemma resolve_one environ ws r f w net :
  w ∈ ws → repository w = r → file_name w = f →
  (∀ w', w' ∈ ws → repository w' = r → file_name w' = f → w' = w) →
  run (resolve repr set_iter environ ws r f) net
  = (resolved_events environ w, Returned ()).
Proof.
  intros Hw Hr Hf Hall. unfold resolve.
  rewrite (select_singleton ws r f w) by done.
  rewrite size_singleton. simpl.
  assert (set_iter {[ w ]} = [w]) as ->.
  { apply Permutation_singleton_r. by rewrite set_iter_perm, elements_singleton. }
  unfold resolved_events. simpl. by destruct (truthy _).
Qed.


(** A successful response whose entries all parse goes on to [resolve]. *)
Lemma run_main_ok environ crepo crun r f url response ws net :
  raise_for_status response = Ok () →
  parse_all (referenced_workflows response) = Ok ws →
  run (main repr set_iter environ crepo crun r f url) (response :: net)
  = (EvGet (run_url url crepo crun) (sent_headers environ)
       :: (run (resolve repr set_iter environ ws r f) net).1,
     (run (resolve repr set_iter environ ws r f) net).2).
Proof.
  intros Hok Hparse. unfold main. simpl. rewrite Hok, Hparse.
  by destruct (run _ net).
Qed.

(** An entry that does not parse stops [main]. *)
Lemma run_main_parse_error environ crepo crun r f url response e net :
  raise_for_status response = Ok () →
  parse_all (referenced_workflows response) = Error e →
  run (main repr set_iter environ crepo crun r f url) (response :: net)
  = ([EvGet (run_url url crepo crun) (sent_headers environ)], Raised e).
Proof. intros Hok Hparse. unfold main. simpl. by rewrite Hok, Hparse. Qed.

Lemma raise_for_status_error response e :
  raise_for_status response = Error e →
  e = HTTPError response ∧ (400 ≤ status_code response < 600)%Z.
Proof. unfold raise_for_status. case_decide; [|done]. by intros [= <-]. Qed.

Lemma run_main_403 environ crepo crun r f url response net :
  status_code response = 403%Z →
  run (main repr set_iter environ crepo crun r f url) (response :: net)
  = ([EvGet (run_url url crepo crun) (sent_headers environ)],
     Raised (Exception msg_forbidden)).
Proof.
  intros H. unfold main, raise_for_status, sent_headers. simpl.
  destruct (decide (400 ≤ status_code response < 600)%Z); [|lia].
  by destruct (decide (status_code response = 403%Z)).
Qed.

Lemma run_main_404 environ crepo crun r f url response response2 net :
  status_code response = 404%Z →
  run (main repr set_iter environ crepo crun r f url)
      (response :: response2 :: net)
  = ([EvGet (run_url url crepo crun) (sent_headers environ);
      EvGet (repo_url url crepo) (sent_headers environ)],
     Raised (Exception
       (if decide (status_code response2 = 404%Z)
        then if truthy (environ !! "GH_TOKEN")
             then msg_repo_check_token repr crepo
             else msg_repo_pass_token repr crepo
        else msg_run_not_found crun))).
Proof.
  intros H. unfold main, raise_for_status, sent_headers. simpl.
  destruct (decide (400 ≤ status_code response < 600)%Z); [|lia].
  destruct (decide (status_code response = 403%Z)); [lia|].
  destruct (decide (status_code response = 404%Z)); [|done]. simpl.
  destruct (decide (status_code response2 = 404%Z)); [|done].
  by destruct (truthy _).
Qed.

Lemma parse_all_app_error before e after ws x :
  parse_all before = Ok ws →
  from_github_api (raw_path e) (raw_sha e) = Error x →
  parse_all (before ++ e :: after) = Error x.
Proof.
  revert ws. induction before as [|b before IH]; intros ws Hb He; simpl.
  - by rewrite He.
  - revert Hb. simpl.
    destruct (from_github_api (raw_path b) (raw_sha b)); [|done].
    destruct (parse_all before) as [ws'|]; [|done]. intros _.
    by rewrite (IH ws' eq_refl He).
Qed.






(** ** Claims about the resolver *)




(** C5: for every response that passes [raise_for_status] and whose
    [referenced_workflows] all parse, if no entry has both the wanted
    repository and the wanted file name, [main] raises the [ValueError]
    "No reference found", whose message names the requested file name and
    repository. *)
Theorem main_no_match environ crepo crun r f url response ws net :
  raise_for_status response = Ok () →
  parse_all (referenced_workflows response) = Ok ws →
  (∀ w, w ∈ ws → ¬ (repository w = r ∧ file_name w = f)) →
  run (main repr set_iter environ crepo crun r f url) (response :: net)
  = ([EvGet (run_url url crepo crun) (sent_headers environ)],
     Raised (ValueError
       ("No reference found for reusable_workflow_file_name=" +:+ repr f +:+
        " reusable_workflow_repository=" +:+ repr r))).
Proof using Type.
  intros Hok Hparse Hno.
  rewrite (run_main_ok _ _ _ _ _ _ _ ws) by done.
  by rewrite resolve_none.
Qed.

(** C8: for every path that does not have the shape
    [<repository>/.github/workflows/<file_name>@<ref>], parsing raises
    [AssertionError] and returns no reference; and [main] does not catch
    it: a response whose first entry that fails to parse has such a path
    ends [main] with that [AssertionError], after the one request and
    before anything is printed. *)
Theorem from_github_api_malformed_fatal path :
  (¬ ∃ r f v, path = r +:+ marker +:+ f +:+ String "@" v) →
  (∀ C, from_github_api path C = Error AssertionError)
  ∧ (∀ environ crepo crun r f url response before e after ws net,
       raise_for_status response = Ok () →
       referenced_workflows response = before ++ e :: after →
       parse_all before = Ok ws →
       raw_path e = path →
       run (main repr set_iter environ crepo crun r f url) (response :: net)
       = ([EvGet (run_url url crepo crun) (sent_headers environ)],
          Raised AssertionError)).
Proof.
  intros Hno. split; [intros C; by apply from_github_api_no_shape|].
  intros environ crepo crun r f url response before e after ws net
         Hok Hlist Hbefore He.
  apply run_main_parse_error; [done|]. rewrite Hlist.
  apply (parse_all_app_error _ _ _ ws); [done|].
  rewrite He. by apply from_github_api_no_shape.
Qed.


(** C10: after a 404 on the run request, every status of the repository
    request other than 404 leads to "workflow run not found": the status
    of the second response is only compared with 404, [raise_for_status]
    is not called on it, so a 403 or a 500 counts as "the repository
    exists". *)
Theorem main_second_status_unchecked environ crepo crun r f url
    response response2 net :
  status_code response = 404%Z →
  status_code response2 ≠ 404%Z →
  (run (main repr set_iter environ crepo crun r f url)
       (response :: response2 :: net)).2
  = Raised (Exception (msg_run_not_found crun)).
Proof. intros H1 H2. rewrite run_main_404 by done. simpl. by case_decide. Qed.

End Resolver.

(** ** The claims at concrete inputs *)




Lemma main_no_match_witness :
  run (main Str.quote elements ∅ "octocat/Hello-World" 12 "acme/infra"
            "build.yaml" "https://api.github.com")
      [ {| status_code := 200;
           referenced_workflows :=
             [ {| raw_path := "acme/infra/.github/workflows/lint.yaml@v1";
                  raw_sha := "fff000" |};
               {| raw_path := "acme/other/.github/workflows/build.yaml@v1";
                  raw_sha := "abc123" |} ] |} ]
  = ([ EvGet "https://api.github.com/repos/octocat/Hello-World/actions/runs/12"
             default_headers ],
     Raised (ValueError
       "No reference found for reusable_workflow_file_name='build.yaml' reusable_workflow_repository='acme/infra'")).
Proof.
  etrans.
  { apply (main_no_match Str.quote elements ∅ "octocat/Hello-World" 12
             "acme/infra" "build.yaml" "https://api.github.com" _
             [ {| sha := "fff000"; repository := "acme/infra";
                  file_name := "lint.yaml"; ref := "v1" |};
               {| sha := "abc123"; repository := "acme/other";
                  file_name := "build.yaml"; ref := "v1" |} ] []);
      [reflexivity|reflexivity|].
    intros x Hx [Hr Hf].
    apply elem_of_cons in Hx as [->|Hx]; [done|].
    apply elem_of_cons in Hx as [->|Hx]; [done|].
    by apply elem_of_nil in Hx. }
  reflexivity.
Defined.

Lemma from_github_api_malformed_fatal_witness :
  from_github_api "acme/infra/.github/workflow/build.yaml@v2.0.0" "abc123"
  = Error AssertionError
  ∧ run (main Str.quote elements ∅ "octocat/Hello-World" 12 "acme/infra"
              "build.yaml" "https://api.github.com")
        [ {| status_code := 200;
             referenced_workflows :=
               [ {| raw_path := "acme/infra/.github/workflows/build.yaml@v2.0.0";
                    raw_sha := "abc123" |};
                 {| raw_path := "acme/infra/.github/workflow/build.yaml@v2.0.0";
                    raw_sha := "abc123" |} ] |} ]
    = ([ EvGet "https://api.github.com/repos/octocat/Hello-World/actions/runs/12"
               default_headers ],
       Raised AssertionError).
Proof.
  assert (¬ ∃ r f v, "acme/infra/.github/workflow/build.yaml@v2.0.0"
                     = r +:+ marker +:+ f +:+ String "@" v) as Hno.
  { intros (r & f & v & H).
    pose proof (occurs_of_app marker r (f +:+ String "@" v)) as Hocc.
    rewrite <- H in Hocc. vm_compute in Hocc. discriminate. }
  destruct (from_github_api_malformed_fatal Str.quote elements _ Hno)
    as [Hparse Hmain].
  split; [apply Hparse|].
  etrans.
  { apply (Hmain ∅ "octocat/Hello-World" 12%Z "acme/infra" "build.yaml"
             "https://api.github.com"
             {| status_code := 200;
                referenced_workflows :=
                  [ {| raw_path := "acme/infra/.github/workflows/build.yaml@v2.0.0";
                       raw_sha := "abc123" |};
                    {| raw_path := "acme/infra/.github/workflow/build.yaml@v2.0.0";
                       raw_sha := "abc123" |} ] |}
             [ {| raw_path := "acme/infra/.github/workflows/build.yaml@v2.0.0";
                  raw_sha := "abc123" |} ]
             {| raw_path := "acme/infra/.github/workflow/build.yaml@v2.0.0";
                raw_sha := "abc123" |}
             []
             [ {| sha := "abc123"; repository := "acme/infra";
                  file_name := "build.yaml"; ref := "v2.0.0" |} ]
             []); reflexivity. }
  reflexivity.
Defined.


Lemma main_second_status_unchecked_witness :
  raise_for_status {| status_code := 500; referenced_workflows := [] |}
  = Error (HTTPError {| status_code := 500; referenced_workflows := [] |})
  ∧ (run (main Str.quote elements ∅ "octocat/Hello-World" 12 "acme/infra"
               "build.yaml" "https://api.github.com")
         [ {| status_code := 404; referenced_workflows := [] |};
           {| status_code := 500; referenced_workflows := [] |} ]).2
    = Raised (Exception
        "Workflow run not found. Check if caller_run_id=12 is valid")
  ∧ (run (main Str.quote elements ∅ "octocat/Hello-World" 12 "acme/infra"
               "build.yaml" "https://api.github.com")
         [ {| status_code := 404; referenced_workflows := [] |};
           {| status_code := 403; referenced_workflows := [] |} ]).2
    = Raised (Exception
        "Workflow run not found. Check if caller_run_id=12 is valid").
Proof.
  split; [reflexivity|]. split.
  - etrans.
    { apply (main_second_status_unchecked Str.quote elements ∅ _ _ _ _ _
               {| status_code := 404; referenced_workflows := [] |}
               {| status_code := 500; referenced_workflows := [] |} []);
        [reflexivity|discriminate]. }
    reflexivity.
  - etrans.
    { apply (main_second_status_unchecked Str.quote elements ∅ _ _ _ _ _
               {| status_code := 404; referenced_workflows := [] |}
               {| status_code := 403; referenced_workflows := [] |} []);
        [reflexivity|discriminate]. }
    reflexivity.
Defined.

(** * Part III: further properties of the code *)

Example validate_examples :
  validate_github_repository "octocat/Hello-World" = Accepted "octocat/Hello-World"
  ∧ validate_github_repository "canonical/data-platform-workflows"
    = Accepted "canonical/data-platform-workflows"
  ∧ validate_github_repository "a/b/c"
    = BadParameter "'a/b/c' is not a valid GitHub repository name"
  ∧ validate_github_repository "a_b/c"
    = BadParameter "'a_b/c' is not a valid GitHub repository name"
  ∧ parse_github_api_url "https://api.github.com/" = "https://api.github.com"
  ∧ parse_github_api_url "https://api.github.com//" = "https://api.github.com/"
  ∧ parse_github_api_url "https://api.github.com" = "https://api.github.com"
  ∧ parse_github_api_url "" = "".
Proof. repeat split. Qed.

(** ** The callbacks *)

Section Callbacks.

Import ReClass.

Lemma all_app p s t : PyStr.all p (s +:+ t) = PyStr.all p s && PyStr.all p t.
Proof.
  induction s as [|c s IH]; [done|].
  rewrite sapp_cons. simpl. by rewrite IH, andb_assoc.
Qed.

Lemma count_app c s t :
  PyStr.count c (s +:+ t) = PyStr.count c s + PyStr.count c t.
Proof.
  induction s as [|d s IH]; [done|]. rewrite sapp_cons. simpl. rewrite IH. lia.
Qed.

(** A text made of characters other than [c] does not hold [c]. *)
Lemma all_count p c s :
  p c = false → PyStr.all p s = true → PyStr.count c s = 0.
Proof.
  intros Hc. induction s as [|d s IH]; [done|]. simpl.
  intros [Hd Hs]%andb_true_iff. rewrite (IH Hs).
  destruct (Ascii.eqb_spec d c) as [->|]; [congruence|done].
Qed.

Lemma all_has p c s : p c = false → PyStr.all p s = true → Str.has c s = false.
Proof.
  intros Hc. induction s as [|d s IH]; [done|]. simpl.
  intros [Hd Hs]%andb_true_iff. rewrite (IH Hs).
  destruct (Ascii.eqb_spec d c) as [->|]; [congruence|done].
Qed.

(** A greedy repetition succeeds when some run of characters of the class,
    short or long, lets the continuation succeed. *)
Lemma greedy_star_true cl s k :
  greedy_star cl s k = true
  ↔ ∃ u t, s = u +:+ t ∧ PyStr.all (class_matches cl) u = true ∧ k t = true.
Proof.
  split.
  - induction s as [|c s IH]; simpl.
    + intros H. by exists "", "".
    + destruct (class_matches cl c) eqn:Hc.
      * intros [H|H]%orb_true_iff; [|by exists "", (String c s)].
        destruct (IH H) as (u & t & -> & Hu & Ht).
        exists (String c u), t. split; [done|]. simpl. by rewrite Hc, Hu.
      * intros H. by exists "", (String c s).
  - intros (u & t & -> & Hu & Ht). induction u as [|c u IH].
    + destruct t as [|c t]; simpl; [done|]. rewrite Ht.
      destruct (class_matches cl c); [by rewrite orb_true_r|done].
    + simpl in Hu. apply andb_true_iff in Hu as [Hc Hu].
      rewrite sapp_cons. simpl. by rewrite Hc, (IH Hu).
Qed.

Lemma plus_true cl s k :
  rmatch (Plus cl) s k = true
  ↔ ∃ u t, s = u +:+ t ∧ u ≠ ""
           ∧ PyStr.all (class_matches cl) u = true ∧ k t = true.
Proof.
  split.
  - destruct s as [|c s]; simpl; [done|].
    intros [Hc (u & t & -> & Hu & Ht)%greedy_star_true]%andb_true_iff.
    exists (String c u), t. split; [done|]. split; [done|].
    simpl. by rewrite Hc, Hu.
  - intros (u & t & -> & Hne & Hu & Ht). destruct u as [|c u]; [done|].
    simpl in Hu. apply andb_true_iff in Hu as [Hc Hu].
    rewrite sapp_cons. simpl. rewrite Hc. simpl.
    apply greedy_star_true. by exists u, t.
Qed.

Lemma rmatch_class_seq r1 r2 s k :
  rmatch (Seq r1 r2) s k = rmatch r1 s (λ s', rmatch r2 s' k).
Proof. reflexivity. Qed.

Lemma rmatch_class_chr c d s k :
  rmatch (Chr c) (String d s) k = Ascii.eqb d c && k s.
Proof. reflexivity. Qed.

(** The values that the pattern of a repository name matches. *)
Lemma fullmatch_github_repository value :
  fullmatch github_repository_re value = true
  ↔ ∃ owner name,
      value = owner +:+ String "/" name
      ∧ owner ≠ "" ∧ name ≠ ""
      ∧ PyStr.all (class_matches owner_class) owner = true
      ∧ PyStr.all (class_matches name_class) name = true.
Proof.
  unfold fullmatch, github_repository_re.
  rewrite rmatch_class_seq, plus_true. split.
  - intros (owner & t & -> & Hne & Ho & H).
    rewrite rmatch_class_seq in H. destruct t as [|c t]; [done|].
    rewrite rmatch_class_chr in H.
    apply andb_true_iff in H as [->%Ascii.eqb_eq H].
    apply plus_true in H as (name & t' & -> & Hne' & Hn & H).
    destruct t'; [|done]. rewrite sapp_nil_r. by exists owner, name.
  - intros (owner & name & -> & Hne & Hne' & Ho & Hn).
    exists owner, (String "/" name). split; [done|]. split; [done|].
    split; [done|]. rewrite rmatch_class_seq, rmatch_class_chr, Ascii.eqb_refl.
    apply plus_true. exists name, "". by rewrite sapp_nil_r.
Qed.

Lemma split_unique c u1 t1 u2 t2 :
  u1 +:+ String c t1 = u2 +:+ String c t2 →
  Str.has c u1 = false → Str.has c u2 = false →
  u1 = u2 ∧ t1 = t2.
Proof.
  revert u2. induction u1 as [|d u1 IH]; intros [|e u2]; simpl.
  - by intros [= ->].
  - intros [= <- _] _. by rewrite Ascii.eqb_refl.
  - intros [= -> _]. by rewrite Ascii.eqb_refl.
  - rewrite !sapp_cons. intros [= -> H].
    intros [_ H1]%orb_false_iff [_ H2]%orb_false_iff.
    destruct (IH _ H H1 H2) as [-> ->]. done.
Qed.

Lemma ends_app m u : Str.ends m (u +:+ m) = true.
Proof.
  induction u as [|c u IH].
  - destruct m as [|a m]; [done|].
    change (Str.ends (String a m) ("" +:+ String a m))
      with (String.eqb (String a m) (String a m) || Str.ends (String a m) m).
    by rewrite String.eqb_refl.
  - rewrite sapp_cons.
    change (Str.ends m (String c (u +:+ m)))
      with (String.eqb (String c (u +:+ m)) m || Str.ends m (u +:+ m)).
    by rewrite IH, orb_true_r.
Qed.

Lemma all_cons p c s : PyStr.all p (String c s) = p c && PyStr.all p s.
Proof. reflexivity. Qed.

Lemma starts_cons a m b s :
  Str.starts (String a m) (String b s) = Ascii.eqb a b && Str.starts m s.
Proof. reflexivity. Qed.

Lemma sapp_last_inj u v c d :
  u +:+ String c "" = v +:+ String d "" → u = v ∧ c = d.
Proof.
  revert v. induction u as [|a u IH]; intros [|b v]; rewrite ?sapp_cons; simpl.
  - by intros [= ->].
  - intros [= _ H]. by destruct v.
  - intros [= _ H]. by destruct u.
  - intros [= -> H]. by destruct (IH _ H) as [-> ->].
Qed.

Lemma last_char s : s ≠ "" → ∃ u c, s = u +:+ String c "".
Proof.
  induction s as [|a s IH]; [done|]. intros _.
  destruct s as [|b s]; [by exists "", a|].
  destruct IH as (u & c & ->); [done|]. by exists (String a u), c.
Qed.

(** X1: [validate_github_repository] accepts exactly the values
    [owner/name] whose owner is a non-empty run of letters, digits and [-]
    and whose name is a non-empty run of letters, digits, [.], [-] and [_];
    it returns an accepted value unchanged, and on any other value raises
    [BadParameter] with the value between quotes in the message. *)
Theorem validate_github_repository_accepts value :
  ((∃ owner name,
      value = owner +:+ String "/" name
      ∧ owner ≠ "" ∧ name ≠ ""
      ∧ PyStr.all (class_matches owner_class) owner = true
      ∧ PyStr.all (class_matches name_class) name = true) →
   validate_github_repository value = Accepted value)
  ∧ ((¬ ∃ owner name,
        value = owner +:+ String "/" name
        ∧ owner ≠ "" ∧ name ≠ ""
        ∧ PyStr.all (class_matches owner_class) owner = true
        ∧ PyStr.all (class_matches name_class) name = true) →
     validate_github_repository value
     = BadParameter ("'" +:+ value +:+ "' is not a valid GitHub repository name")).
Proof.
  unfold validate_github_repository.
  destruct (fullmatch github_repository_re value) eqn:E; simpl.
  - split; [done|]. intros []. by apply fullmatch_github_repository.
  - split; [|done]. intros H%fullmatch_github_repository. congruence.
Qed.

(** X2: a value that [validate_github_repository] accepts is returned as
    it is; it holds exactly one [/], which is neither its first nor its
    last character, and no line feed. *)
Theorem validate_github_repository_one_slash value x :
  validate_github_repository value = Accepted x →
  x = value
  ∧ PyStr.count "/" value = 1
  ∧ Str.starts "/" value = false
  ∧ Str.ends "/" value = false
  ∧ Str.has Str.LF value = false.
Proof.
  unfold validate_github_repository.
  destruct (fullmatch github_repository_re value) eqn:E; unfold negb; [|done].
  intros [= <-]. split; [done|].
  apply fullmatch_github_repository in E
    as (owner & name & -> & Hne & Hne' & Ho & Hn).
  split; [|split; [|split]].
  - rewrite count_app. simpl.
    by rewrite (all_count _ "/" owner eq_refl Ho),
               (all_count _ "/" name eq_refl Hn).
  - destruct owner as [|c owner]; [done|].
    rewrite all_cons in Ho. apply andb_true_iff in Ho as [Hc _].
    rewrite sapp_cons, starts_cons.
    destruct (Ascii.eqb_spec "/" c) as [<-|]; [by vm_compute in Hc|done].
  - destruct (Str.ends "/" (owner +:+ String "/" name)) eqn:He; [|done].
    apply ends_inv in He as [u Hu].
    destruct (last_char name Hne') as (n & c & ->).
    rewrite all_app in Hn. apply andb_true_iff in Hn as [_ Hc].
    rewrite all_cons in Hc. apply andb_true_iff in Hc as [Hc _].
    replace (owner +:+ String "/" (n +:+ String c ""))
      with ((owner +:+ String "/" n) +:+ String c "") in Hu
      by (by rewrite sapp_assoc).
    apply sapp_last_inj in Hu as [_ ->]. by vm_compute in Hc.
  - rewrite has_app. simpl.
    by rewrite (all_has _ Str.LF owner eq_refl Ho),
               (all_has _ Str.LF name eq_refl Hn).
Qed.

Lemma removesuffix_slash value :
  (Str.ends "/" value = true →
   value = PyStr.removesuffix "/" value +:+ "/")
  ∧ (Str.ends "/" value = false → PyStr.removesuffix "/" value = value).
Proof.
  unfold PyStr.removesuffix.
  change (Str.nonempty "/") with true. rewrite andb_true_l.
  split; intros H; rewrite H; [|done].
  apply ends_inv in H as [u ->].
  rewrite slength_app.
  replace (String.length u + String.length "/" - String.length "/")
    with (String.length u) by (simpl; lia).
  by rewrite take_app.
Qed.

(** X3: [parse_github_api_url] removes one final [/]: a value that ends
    with [/] is the result followed by [/], any other value is returned as
    it is. *)
Theorem parse_github_api_url_one_slash value :
  (Str.ends "/" value = true →
   value = parse_github_api_url value +:+ "/")
  ∧ (Str.ends "/" value = false → parse_github_api_url value = value).
Proof.
  unfold parse_github_api_url, PyStr.removesuffix.
  change (Str.nonempty "/") with true. rewrite andb_true_l.
  split; intros H; rewrite H; [|done].
  apply ends_inv in H as [u ->].
  rewrite slength_app.
  replace (String.length u + String.length "/" - String.length "/")
    with (String.length u) by (simpl; lia).
  by rewrite take_app.
Qed.

(** X4: [parse_github_api_url] does not remove every final [/]: its
    result still ends with [/] exactly when the value ends with [//]. *)
Theorem parse_github_api_url_still_slash value :
  Str.ends "/" (parse_github_api_url value) = Str.ends "//" value.
Proof.
  assert (∀ v, Str.ends "//" v = true → ∃ w, v = (w +:+ "/") +:+ "/") as H2.
  { intros v [w ->]%ends_inv. exists w. by rewrite sapp_assoc. }
  unfold parse_github_api_url.
  destruct (removesuffix_slash value) as [Ht Hf].
  destruct (Str.ends "/" value) eqn:E.
  - specialize (Ht eq_refl). set (u := PyStr.removesuffix "/" value) in *.
    rewrite Ht. destruct (Str.ends "/" u) eqn:Eu.
    + apply ends_inv in Eu as [w ->]. rewrite sapp_assoc. symmetry.
      apply (ends_app "//").
    + destruct (Str.ends "//" (u +:+ "/")) eqn:E2; [|done].
      apply H2 in E2 as [w Hw]. apply sapp_last_inj in Hw as [-> _].
      by rewrite (ends_app "/") in Eu.
  - rewrite (Hf eq_refl), E.
    destruct (Str.ends "//" value) eqn:E2; [|done].
    apply H2 in E2 as [w ->]. by rewrite (ends_app "/") in E.
Qed.

End Callbacks.

(** ** The parser, further *)

(** X5: a reference comes from one path and one commit only: two calls of
    [from_github_api] that return the same reference were given the same
    path and the same commit. *)
Theorem from_github_api_injective path1 C1 path2 C2 w :
  from_github_api path1 C1 = Ok w →
  from_github_api path2 C2 = Ok w →
  path1 = path2 ∧ C1 = C2.
Proof.
  intros H1 H2.
  destruct (from_github_api_inv path1 C1) as [E|(r1 & f1 & v1 & E1 & -> & _)];
    [congruence|].
  destruct (from_github_api_inv path2 C2) as [E|(r2 & f2 & v2 & E2 & -> & _)];
    [congruence|].
  rewrite E1 in H1. rewrite E2 in H2. by simplify_eq.
Qed.

Lemma from_github_api_injective_witness :
  "a/b/.github/workflows/f@v1" = "a/b/.github/workflows/f@v1" ∧ "abc" = "abc".
Proof.
  apply (from_github_api_injective
           "a/b/.github/workflows/f@v1" "abc" "a/b/.github/workflows/f@v1" "abc"
           {| sha := "abc"; repository := "a/b"; file_name := "f"; ref := "v1" |});
    reflexivity.
Defined.

(** ** The list of entries *)



Lemma parse_all_elem l ws :
  parse_all l = Ok ws →
  ∀ w, w ∈ ws
       ↔ ∃ e, e ∈ l ∧ from_github_api (raw_path e) (raw_sha e) = Ok w.
Proof.
  revert ws. induction l as [|a l IH]; intros ws; simpl.
  - intros [= <-] w. split; [by intros ?%elem_of_nil|].
    by intros (e & ?%elem_of_nil & _).
  - destruct (from_github_api (raw_path a) (raw_sha a)) as [x|] eqn:E; [|done].
    destruct (parse_all l) as [xs|]; [|done]. intros [= <-] w.
    rewrite elem_of_cons, (IH xs eq_refl). split.
    + intros [->|(e & He & Hw)].
      * exists a. split; [left|done].
      * exists e. split; [by right|done].
    + intros (e & [->|He]%elem_of_cons & Hw); [left; congruence|].
      right. by exists e.
Qed.



(** ** The resolver, further *)

Section ResolverMore.

Variable repr : string → string.
Variable set_iter : gset ReusableWorkflow → list ReusableWorkflow.
Hypothesis set_iter_perm : ∀ X, set_iter X ≡ₚ elements X.

Implicit Types (environ : gmap string string) (net : list Response).
Implicit Types (w : ReusableWorkflow) (ws : list ReusableWorkflow).

(** [resolve] prints and writes only when it returns, and it sends no
    request. *)
Lemma resolve_quiet environ ws r f net :
  requests (run (resolve repr set_iter environ ws r f) net).1 = []
  ∧ ((run (resolve repr set_iter environ ws r f) net).2 ≠ Returned () →
     (run (resolve repr set_iter environ ws r f) net).1 = []).
Proof using Type.
  unfold resolve. repeat (case_decide; [done|]).
  destruct (set_iter _) as [|w ?]; [done|]. simpl.
  by destruct (truthy (environ !! "GITHUB_OUTPUT")).
Qed.

(** [resolve] either raises a [ValueError] or returns after it printed the
    one entry for the wanted workflow. *)
Lemma resolve_cases environ ws r f net :
  (∃ m, run (resolve repr set_iter environ ws r f) net
        = ([], Raised (ValueError m)))
  ∨ (∃ w, run (resolve repr set_iter environ ws r f) net
          = (resolved_events environ w, Returned ())
          ∧ w ∈ ws ∧ repository w = r ∧ file_name w = f
          ∧ ∀ w', w' ∈ ws → repository w' = r → file_name w' = f → w' = w).
Proof.
  destruct (decide (size (select ws r f) = 0)) as [H0|H0].
  { left. unfold resolve. destruct (decide (size (select ws r f) = 0)); [|done].
    by eexists. }
  destruct (decide (1 < size (select ws r f))) as [H1|H1].
  { left. unfold resolve. destruct (decide (size (select ws r f) = 0)); [done|].
    destruct (decide (1 < size (select ws r f))); [|done]. by eexists. }
  right. destruct (size_1_elem_of (select ws r f)) as [w Hw]; [lia|].
  apply leibniz_equiv in Hw.
  assert (w ∈ select ws r f) as (Hin & Hr & Hf)%elem_of_select
    by (rewrite Hw; by apply elem_of_singleton).
  assert (∀ w', w' ∈ ws → repository w' = r → file_name w' = f → w' = w)
    as Hall.
  { intros w' Hin' Hr' Hf'. apply (elem_of_singleton (C:=gset ReusableWorkflow)).
    rewrite <- Hw. by apply elem_of_select. }
  exists w. split; [by apply resolve_one|done].
Qed.

(** [main] with two environments that give the same truth value to
    [GH_TOKEN] and to [GITHUB_OUTPUT], and the same value where it is
    true, is the same program. *)
Lemma main_environ env1 env2 crepo crun r f url :
  truthy (env1 !! "GH_TOKEN") = truthy (env2 !! "GH_TOKEN") →
  (truthy (env1 !! "GH_TOKEN") = true →
   env1 !! "GH_TOKEN" = env2 !! "GH_TOKEN") →
  truthy (env1 !! "GITHUB_OUTPUT") = truthy (env2 !! "GITHUB_OUTPUT") →
  (truthy (env1 !! "GITHUB_OUTPUT") = true →
   env1 !! "GITHUB_OUTPUT" = env2 !! "GITHUB_OUTPUT") →
  main repr set_iter env1 crepo crun r f url
  = main repr set_iter env2 crepo crun r f url.
Proof using Type.
  intros Ht Ht' Ho Ho'. unfold main, resolve. rewrite <- Ht, <- Ho.
  destruct (truthy (env1 !! "GH_TOKEN")) eqn:E1;
    destruct (truthy (env1 !! "GITHUB_OUTPUT")) eqn:E2;
    rewrite <- ?(Ht' eq_refl), <- ?(Ho' eq_refl); reflexivity.
Qed.

Lemma run_main_http_error environ crepo crun r f url response net :
  (400 ≤ status_code response < 600)%Z →
  status_code response ≠ 403%Z →
  status_code response ≠ 404%Z →
  run (main repr set_iter environ crepo crun r f url) (response :: net)
  = ([EvGet (run_url url crepo crun) (sent_headers environ)],
     Raised (HTTPError response)).
Proof using Type.
  intros Hs H403 H404. unfold main, raise_for_status, sent_headers. simpl.
  destruct (decide (400 ≤ status_code response < 600)%Z); [|done].
  destruct (decide (status_code response = 403%Z)); [done|].
  by destruct (decide (status_code response = 404%Z)).
Qed.

(** X6: an error status of the run request other than 403 and 404 (any
    other status from 400 to 599) is raised again as the [HTTPError] of
    [raise_for_status], carrying that response: [main] sends no second
    request and prints nothing. *)
Theorem main_other_http_error environ crepo crun r f url response net :
  (400 ≤ status_code response < 600)%Z →
  status_code response ≠ 403%Z →
  status_code response ≠ 404%Z →
  run (main repr set_iter environ crepo crun r f url) (response :: net)
  = ([EvGet (run_url url crepo crun) (sent_headers environ)],
     Raised (HTTPError response)).
Proof using Type.
  intros Hs H403 H404. unfold main, raise_for_status, sent_headers. simpl.
  destruct (decide (400 ≤ status_code response < 600)%Z); [|done].
  destruct (decide (status_code response = 403%Z)); [done|].
  by destruct (decide (status_code response = 404%Z)).
Qed.

(** X7: [main] sends one request, to the address of the run, and a second
    one, to the address of the repository, exactly when the first response
    has status 404; both carry the same headers. *)
Theorem main_requests environ crepo crun r f url net :
  requests (run (main repr set_iter environ crepo crun r f url) net).1
  = (run_url url crepo crun, sent_headers environ)
    :: match net with
       | response :: _ =>
           if decide (status_code response = 404%Z)
           then [(repo_url url crepo, sent_headers environ)]
           else []
       | [] => []
       end.
Proof using Type.
  unfold main, sent_headers, run_url, repo_url.
  destruct net as [|response net]; simpl; [done|].
  destruct (raise_for_status response) as [[]|e] eqn:Hs.
  - assert (status_code response ≠ 404%Z) as H404.
    { revert Hs. unfold raise_for_status. case_decide; [done|]. lia. }
    destruct (decide (status_code response = 404%Z)); [done|].
    destruct (parse_all (referenced_workflows response)) as [ws|e]; [|done].
    pose proof (resolve_quiet environ ws r f net) as [Hq _].
    destruct (run (resolve _ _ _ _ _ _) net) as [evs o]. simpl in *.
    by rewrite Hq.
  - apply raise_for_status_error in Hs as [-> _].
    destruct (decide (status_code response = 403%Z)) as [E|];
      [by rewrite decide_False by lia|].
    destruct (decide (status_code response = 404%Z)); [|done].
    destruct net as [|response2 net]; simpl; [done|].
    case_decide; [destruct (truthy _)|]; done.
Qed.


(** X9: when [main] returns, the version it printed is in the response:
    the first response passed [raise_for_status], and one of its entries
    has the path [<wanted repository>/.github/workflows/<wanted file>@ref]
    and the commit, for the ref and the commit that were printed (and
    written to the file of [GITHUB_OUTPUT]). *)
Theorem main_returns_an_entry environ crepo crun r f url net evs :
  run (main repr set_iter environ crepo crun r f url) net = (evs, Returned ()) →
  ∃ response net' e v,
    net = response :: net'
    ∧ raise_for_status response = Ok ()
    ∧ e ∈ referenced_workflows response
    ∧ raw_path e = r +:+ marker +:+ f +:+ String "@" v
    ∧ evs = EvGet (run_url url crepo crun) (sent_headers environ)
            :: resolved_events environ
                 {| sha := raw_sha e; repository := r; file_name := f;
                    ref := v |}.
Proof.
  destruct net as [|response net]; [done|].
  destruct (raise_for_status response) as [[]|x] eqn:Hs.
  - destruct (parse_all (referenced_workflows response)) as [ws|x] eqn:Hp.
    + rewrite (run_main_ok _ _ _ _ _ _ _ _ _ ws) by done.
      destruct (resolve_cases environ ws r f net)
        as [[m ->]|(w & -> & Hw & Hr & Hf & _)]; [done|].
      simpl. intros [= <-].
      apply (parse_all_elem _ _ Hp) in Hw as (e & He & Hw).
      destruct (from_github_api_inv (raw_path e) (raw_sha e))
        as [E|(r' & f' & v & E & Hpath & _)]; [congruence|].
      rewrite E in Hw. injection Hw as <-. simpl in Hr, Hf. subst r' f'.
      by exists response, net, e, v.
    + by rewrite (run_main_parse_error _ _ _ _ _ _ _ _ _ x).
  - apply raise_for_status_error in Hs as [-> Hs].
    destruct (decide (status_code response = 403%Z)) as [E|E].
    { by rewrite run_main_403. }
    destruct (decide (status_code response = 404%Z)) as [E'|E'].
    + destruct net as [|response2 net]; [|by rewrite run_main_404].
      unfold main, raise_for_status. simpl.
      destruct (decide (400 ≤ status_code response < 600)%Z); [|done].
      destruct (decide (status_code response = 403%Z)); [done|].
      by destruct (decide (status_code response = 404%Z)).
    + by rewrite run_main_http_error.
Qed.


(** X11: an environment variable set to the empty text is as if it were
    not set: [main] with [GH_TOKEN] (or [GITHUB_OUTPUT], or any variable)
    set to [""] is [main] without that variable. *)
Theorem main_empty_variable environ k crepo crun r f url :
  main repr set_iter (<[k := ""]> environ) crepo crun r f url
  = main repr set_iter (delete k environ) crepo crun r f url.
Proof using Type.
  assert (∀ x, truthy (<[k := ""]> environ !! x) = truthy (delete k environ !! x)
               ∧ (truthy (<[k := ""]> environ !! x) = true →
                  <[k := ""]> environ !! x = delete k environ !! x)) as H.
  { intros x. destruct (decide (k = x)) as [->|Hne].
    - by rewrite lookup_insert_eq, lookup_delete_eq.
    - by rewrite lookup_insert_ne, lookup_delete_ne. }
  apply main_environ; apply H.
Qed.

(** X12: [main] reads two environment variables only: setting or changing
    any variable other than [GH_TOKEN] and [GITHUB_OUTPUT] leaves [main]
    as it is. *)
Theorem main_other_variable environ k v crepo crun r f url :
  k ≠ "GH_TOKEN" → k ≠ "GITHUB_OUTPUT" →
  main repr set_iter (<[k := v]> environ) crepo crun r f url
  = main repr set_iter environ crepo crun r f url.
Proof using Type.
  intros H1 H2. apply main_environ; by rewrite lookup_insert_ne.
Qed.


(** X15: an entry for another workflow does not matter: for a response
    that passes [raise_for_status], putting before its entries one that
    parses to another repository or another file name leaves the run of
    [main] as it is. *)
Theorem main_ignores_other_workflows environ crepo crun r f url
    response response' e w net :
  raise_for_status response = Ok () →
  raise_for_status response' = Ok () →
  referenced_workflows response' = e :: referenced_workflows response →
  from_github_api (raw_path e) (raw_sha e) = Ok w →
  ¬ (repository w = r ∧ file_name w = f) →
  run (main repr set_iter environ crepo crun r f url) (response' :: net)
  = run (main repr set_iter environ crepo crun r f url) (response :: net).
Proof using Type.
  intros Hs Hs' Hl He Hw.
  destruct (parse_all (referenced_workflows response)) as [ws|x] eqn:Hp.
  - rewrite (run_main_ok _ _ _ _ _ _ _ _ response ws) by done.
    rewrite (run_main_ok _ _ _ _ _ _ _ _ response' (w :: ws))
      by (by rewrite ?Hl; simpl; rewrite ?He, ?Hp).
    assert (select (w :: ws) r f = select ws r f) as Hsel.
    { apply set_eq. intros x. rewrite !elem_of_select, elem_of_cons. split.
      - intros ([->|Hx] & Hr & Hf); [by destruct Hw|done].
      - intros (Hx & Hr & Hf). split; [by right|done]. }
    unfold resolve. by rewrite Hsel.
  - rewrite (run_main_parse_error _ _ _ _ _ _ _ _ response x) by done.
    rewrite (run_main_parse_error _ _ _ _ _ _ _ _ response' x);
      [done|done|by rewrite Hl; simpl; rewrite He, Hp].
Qed.

End ResolverMore.

(** ** The further properties at concrete inputs *)

Lemma validate_github_repository_accepts_witness :
  validate_github_repository "octocat/Hello-World"
  = Accepted "octocat/Hello-World"
  ∧ validate_github_repository "a/b/c"
    = BadParameter "'a/b/c' is not a valid GitHub repository name".
Proof.
  split.
  - apply (proj1 (validate_github_repository_accepts "octocat/Hello-World")).
    exists "octocat", "Hello-World". by repeat split.
  - apply (proj2 (validate_github_repository_accepts "a/b/c")).
    intros H%fullmatch_github_repository. vm_compute in H. discriminate.
Defined.

Lemma validate_github_repository_one_slash_witness :
  "octocat/Hello-World" = "octocat/Hello-World"
  ∧ PyStr.count "/" "octocat/Hello-World" = 1
  ∧ Str.starts "/" "octocat/Hello-World" = false
  ∧ Str.ends "/" "octocat/Hello-World" = false
  ∧ Str.has Str.LF "octocat/Hello-World" = false.
Proof.
  apply (validate_github_repository_one_slash "octocat/Hello-World").
  reflexivity.
Defined.

Lemma parse_github_api_url_one_slash_witness :
  "https://ghe.example.com/api/v3/"
  = parse_github_api_url "https://ghe.example.com/api/v3/" +:+ "/"
  ∧ parse_github_api_url "https://api.github.com" = "https://api.github.com".
Proof.
  split.
  - apply (proj1 (parse_github_api_url_one_slash
                    "https://ghe.example.com/api/v3/")). reflexivity.
  - apply (proj2 (parse_github_api_url_one_slash "https://api.github.com")).
    reflexivity.
Defined.

Lemma main_other_http_error_witness :
  run (main Str.quote elements ∅ "octocat/Hello-World" 12 "acme/infra"
            "build.yaml" "https://api.github.com")
      [ {| status_code := 500; referenced_workflows := [] |} ]
  = ([ EvGet "https://api.github.com/repos/octocat/Hello-World/actions/runs/12"
             default_headers ],
     Raised (HTTPError {| status_code := 500; referenced_workflows := [] |})).
Proof.
  etrans.
  { apply (main_other_http_error Str.quote elements ∅ _ _ _ _ _
             {| status_code := 500; referenced_workflows := [] |} []);
      [done|discriminate|discriminate]. }
  reflexivity.
Defined.


Lemma main_returns_an_entry_witness :
  ∃ response net' e v,
    [ {| status_code := 200;
         referenced_workflows :=
           [ {| raw_path := "acme/infra/.github/workflows/build.yaml@v2.0.0";
                raw_sha := "abc123" |} ] |} ]
    = response :: net'
    ∧ raise_for_status response = Ok ()
    ∧ e ∈ referenced_workflows response
    ∧ raw_path e = "acme/infra" +:+ marker +:+ "build.yaml" +:+ String "@" v
    ∧ [ EvGet "https://api.github.com/repos/octocat/Hello-World/actions/runs/12"
              default_headers;
        EvPrint "Reusable workflow version: abc123 (ref: v2.0.0)" ]
      = EvGet (run_url "https://api.github.com" "octocat/Hello-World" 12)
              (sent_headers ∅)
        :: resolved_events ∅
             {| sha := raw_sha e; repository := "acme/infra";
                file_name := "build.yaml"; ref := v |}.
Proof.
  apply (main_returns_an_entry Str.quote elements (λ X, reflexivity _) ∅
           "octocat/Hello-World" 12 "acme/infra" "build.yaml"
           "https://api.github.com").
  reflexivity.
Defined.


Lemma main_other_variable_witness :
  main Str.quote elements (<["HOME" := "/root"]> {[ "GH_TOKEN" := "s3cret" ]})
       "octocat/Hello-World" 12 "acme/infra" "build.yaml"
       "https://api.github.com"
  = main Str.quote elements {[ "GH_TOKEN" := "s3cret" ]}
         "octocat/Hello-World" 12 "acme/infra" "build.yaml"
         "https://api.github.com".
Proof. apply main_other_variable; discriminate. Defined.


Lemma main_ignores_other_workflows_witness :
  run (main Str.quote elements ∅ "octocat/Hello-World" 12 "acme/infra"
            "build.yaml" "https://api.github.com")
      [ {| status_code := 200;
           referenced_workflows :=
             [ {| raw_path := "acme/infra/.github/workflows/lint.yaml@v1";
                  raw_sha := "fff000" |};
               {| raw_path := "acme/infra/.github/workflows/build.yaml@v2.0.0";
                  raw_sha := "abc123" |} ] |} ]
  = run (main Str.quote elements ∅ "octocat/Hello-World" 12 "acme/infra"
              "build.yaml" "https://api.github.com")
        [ {| status_code := 200;
             referenced_workflows :=
               [ {| raw_path := "acme/infra/.github/workflows/build.yaml@v2.0.0";
                    raw_sha := "abc123" |} ] |} ].
Proof.
  apply (main_ignores_other_workflows Str.quote elements ∅ _ _ _ _ _ _ _
           {| raw_path := "acme/infra/.github/workflows/lint.yaml@v1";
              raw_sha := "fff000" |}
           {| sha := "fff000"; repository := "acme/infra";
              file_name := "lint.yaml"; ref := "v1" |});
    [reflexivity|reflexivity|reflexivity|reflexivity|].
  intros [_ H]. discriminate H.
Defined.
